(** * Tone.js granular synthesis: the grain scheduler

    A shallow embedding of [Tone/source/buffer/GrainPlayer.ts].  JavaScript
    numbers are IEEE 754 binary64 values, modelled by Rocq's primitive
    floats.  Grain objects live in a store and are named by references, so
    that the array of active sources, the completion callbacks and the stop
    handler all talk about the same objects.  The clock, the grains, the
    buffer and the inherited [Source] are collaborators: each is modelled as
    far as the scheduler uses it, and every call made on one is recorded.

    The definitions come first; the properties follow, and the last module
    runs them on one concrete player. *)

From Stdlib Require Import ZArith Lia Floats.
From stdpp Require Import base option list gmap strings sorting relations.

Set Warnings "-inexact-float".

(** ** Units ([core/type/Units]) *)

Definition Seconds := float.
Definition Positive := float.
Definition Cents := float.

(** [Time] is a number of seconds or a symbolic string such as a notation
    value (time objects are left out); an omitted argument ([time?: Time]) is
    [None]. *)
Inductive Time :=
| TimeNumber (n : float)
| TimeString (s : string).

(** [defaultArg(given, fallback)] of [core/util/Defaults]: the fallback stands
    in for an undefined argument *)
Definition defaultArg {A} (given : option A) (fallback : A) : A :=
  match given with
  | Some v => v
  | None => fallback
  end.

(** JavaScript truthiness of an optional [Time], as tested by [if (duration)]:
    [undefined], [0], [-0], [NaN] and the empty string are falsy. *)
Definition truthy (v : option Time) : bool :=
  match v with
  | None => false
  | Some (TimeNumber n) => negb (PrimFloat.eqb n 0) && negb (is_nan n)
  | Some (TimeString s) => negb (String.eqb s EmptyString)
  end.

(** ** Time-stamped events *)

(** Modelled from the spec: the scheduler's collaborators are driven by
    values that take effect at a time ([setFrequency(value, atTime)],
    "effective at the current time -- later ticks use the new frequency",
    "currently started at [time]").  The timeline itself is not under src/.
    It keeps its events ordered by time; a lookup returns the last event at or
    before the time asked for. *)
Module Timeline.
Section Events.
Context {A : Type}.
Local Open Scope float_scope.

Definition t := list (Seconds * A).

(** insert after the events that are not later than the new one *)
Fixpoint add (e : Seconds * A) (tl : t) : t :=
  match tl with
  | [] => [e]
  | x :: rest => if e.1 <? x.1 then e :: x :: rest else x :: add e rest
  end.

(** the value of the last event at or before [time]; [dflt] when there is
    none *)
Fixpoint valueAt (dflt : A) (time : Seconds) (tl : t) : A :=
  match tl with
  | [] => dflt
  | x :: rest => if time <? x.1 then dflt else valueAt x.2 time rest
  end.

(** drop every event at or after [after] *)
Fixpoint cancel (after : Seconds) (tl : t) : t :=
  match tl with
  | [] => []
  | x :: rest => if x.1 <? after then x :: cancel after rest else []
  end.
End Events.
Arguments t : clear implicits.
End Timeline.

(** Modelled from the spec: the clock's tick frequency is a signal set with
  [setFrequency(value, atTime)] and read at a time; the signal class is not
  under src/. *)
Module Param.
Record t := mk {
  initialValue : float;
  events : Timeline.t float;
}.

Definition setValueAtTime (value : float) (time : Seconds) (prm : t) : t :=
  mk (initialValue prm) (Timeline.add (time, value) (events prm)).

Definition getValueAtTime (time : Seconds) (prm : t) : float :=
  Timeline.valueAt (initialValue prm) time (events prm).
End Param.

(** ["started" | "stopped"], the two playback states of the spec *)
Inductive PlaybackState := started | stopped.

Global Instance PlaybackState_eq_dec : EqDecision PlaybackState.
Proof. solve_decision. Defined.

(** Modelled from the spec: "States: stopped (initial ...) and started", read
  at a time ([this._state.getValueAtTime(time)] in the source); the state
  timeline class is not under src/. *)
Module StateTimeline.
Definition t := Timeline.t PlaybackState.

Definition getValueAtTime (time : Seconds) (st : t) : PlaybackState :=
  Timeline.valueAt stopped time st.

Definition setStateAtTime (state : PlaybackState) (time : Seconds) (st : t) : t :=
  Timeline.add (time, state) st.
End StateTimeline.

(** ** The Periodic Clock *)

(** Modelled from the spec: the clock is an external collaborator with the
  interface [setFrequency(value, atTime)], [start(atTime, initialTickCount)],
  [stop(atTime)], [tickIndexAt(time)] and "a stopped event fired once per stop
  with the stop time"; "stopping ... cancels all future ticks (the clock stops
  producing them)".  [Clock.ts] is not under src/. *)
Module Clock.
Record t := mk {
  frequency : Param.t;
  state : StateTimeline.t;
  (** the initial tick count given at each start *)
  tickOffset : Timeline.t float;
  (** stop events not yet delivered to the listener, oldest first *)
  stopEvents : list Seconds;
}.

(** [new Clock({ frequency })] *)
Definition create (freq : float) : t :=
  mk (Param.mk freq []) [] [] [].

Definition setFrequency (value : float) (time : Seconds) (c : t) : t :=
  mk (Param.setValueAtTime value time (frequency c)) (state c)
     (tickOffset c) (stopEvents c).

Definition start (time : Seconds) (offset : float) (c : t) : t :=
  mk (frequency c)
     (StateTimeline.setStateAtTime started time (state c))
     (Timeline.add (time, offset) (tickOffset c))
     (stopEvents c).

Definition stop (time : Seconds) (c : t) : t :=
  mk (frequency c)
     (StateTimeline.setStateAtTime stopped time (Timeline.cancel time (state c)))
     (tickOffset c)
     (stopEvents c ++ [time]).

(** the clock fires its callback at [time] only while it runs *)
Definition running (time : Seconds) (c : t) : bool :=
  bool_decide (StateTimeline.getValueAtTime time (state c) = started).

(** the initial tick count of the run that contains [time] *)
Definition offsetAt (time : Seconds) (c : t) : float :=
  Timeline.valueAt 0%float time (tickOffset c).
End Clock.

(** ** The Sample Buffer *)

(** Modelled from the spec: the buffer is an external collaborator exposing
  [duration], [loaded] and a read/write [reverse] flag; an unloaded buffer
  has zero duration.  [ToneAudioBuffer.ts] is not under src/. *)
Module ToneAudioBuffer.
Record t := mk {
  duration : Seconds;
  reverse : bool;
  loaded : bool;
}.

(** what the constructor is given: a URL still to be fetched, or decoded
    audio of a known duration *)
Inductive Url :=
| Remote (address : string)
| Decoded (length : Seconds).

Definition create (rev : bool) (url : option Url) : t :=
  match url with
  | Some (Decoded d) => mk d rev true
  | _ => mk 0%float rev false
  end.

Definition set_reverse (rev : bool) (b : t) : t :=
  mk (duration b) rev (loaded b).
End ToneAudioBuffer.

(** ** Grain sources *)

Definition ref := nat.

(** Modelled from the spec: a grain is built from
  [{buffer, fadeIn, fadeOut, loop, loopStart, loopEnd, playbackRateMultiplier}],
  is connected to a sink, and records the [start(atTime, bufferOffset)] and
  [stop(atTime)] it is given; both are scheduling operations, its completion
  notification comes later.  [ToneBufferSource.ts] is not under src/. *)
Module ToneBufferSource.
Record t := mk {
  fadeIn : Seconds;
  fadeOut : Seconds;
  loop : bool;
  loopStart : Seconds;
  loopEnd : Seconds;
  playbackRate : Positive;
  connected : bool;
  (** the arguments of [start(time, offset)], once called *)
  startCall : option (Seconds * Seconds);
  (** the argument of the last [stop(time)] *)
  stopCall : option Seconds;
  (** whether an [onended] callback has been assigned *)
  onended : bool;
}.

Definition connect (g : t) : t :=
  mk (fadeIn g) (fadeOut g) (loop g) (loopStart g) (loopEnd g)
     (playbackRate g) true (startCall g) (stopCall g) (onended g).

Definition set_fadeOut (v : Seconds) (g : t) : t :=
  mk (fadeIn g) v (loop g) (loopStart g) (loopEnd g)
     (playbackRate g) (connected g) (startCall g) (stopCall g) (onended g).

Definition start (time offset : Seconds) (g : t) : t :=
  mk (fadeIn g) (fadeOut g) (loop g) (loopStart g) (loopEnd g)
     (playbackRate g) (connected g) (Some (time, offset)) (stopCall g) (onended g).

Definition stop (time : Seconds) (g : t) : t :=
  mk (fadeIn g) (fadeOut g) (loop g) (loopStart g) (loopEnd g)
     (playbackRate g) (connected g) (startCall g) (Some time) (onended g).

Definition set_onended (g : t) : t :=
  mk (fadeIn g) (fadeOut g) (loop g) (loopStart g) (loopEnd g)
     (playbackRate g) (connected g) (startCall g) (stopCall g) true.
End ToneBufferSource.

(** The calls the scheduler makes on its collaborators, in program order. *)
Inductive Call :=
| ClockSetFrequency (value : float) (time : Seconds)
| ClockStart (time : Seconds) (offset : float)
| ClockStop (time : Seconds)
| SourceNew (r : ref)
| SourceStart (r : ref) (time offset : Seconds)
| SourceSetFadeOut (r : ref) (value : Seconds)
| SourceStop (r : ref) (time : Seconds)
| OnStop.

(** What the host supplies and src/ does not define. *)
Class Host := {
  (** the value in seconds of a symbolic time *)
  parseTime : string -> Seconds;
  (** [Clock.getTicksAtTime]: the tick index reached at a time *)
  getTicksAtTime : Clock.t -> Seconds -> float;
  (** [intervalToFrequencyRatio] of [core/type/Conversions] *)
  intervalToFrequencyRatio : float -> float;
}.


(** ** The Grain Scheduler *)

Module GrainPlayer.

Local Open Scope float_scope.

(** The fields of the class, the two it inherits from [Source] ([_state] and
    the context's clock read by [this.now()]), the store of the grain objects
    it has created, and the calls it has made so far. *)
Record t := mk {
  buffer : ToneAudioBuffer.t;
  _clock : Clock.t;
  _loopStart : Seconds;
  _loopEnd : Seconds;
  _activeSources : list ref;
  _playbackRate : Positive;
  _grainSize : Seconds;
  _overlap : Seconds;
  detune : Cents;
  loop : bool;
  _state : StateTimeline.t;
  now : Seconds;
  sources : gmap ref ToneBufferSource.t;
  nextRef : ref;
  calls : list Call;
}.

Definition upd_buffer (f : ToneAudioBuffer.t -> ToneAudioBuffer.t) (p : t) : t :=
  let 'mk b c ls le a r g o d l s n h k tr := p in mk (f b) c ls le a r g o d l s n h k tr.
Definition upd_clock (f : Clock.t -> Clock.t) (p : t) : t :=
  let 'mk b c ls le a r g o d l s n h k tr := p in mk b (f c) ls le a r g o d l s n h k tr.
Definition put_loopStart (v : Seconds) (p : t) : t :=
  let 'mk b c ls le a r g o d l s n h k tr := p in mk b c v le a r g o d l s n h k tr.
Definition put_loopEnd (v : Seconds) (p : t) : t :=
  let 'mk b c ls le a r g o d l s n h k tr := p in mk b c ls v a r g o d l s n h k tr.
Definition upd_activeSources (f : list ref -> list ref) (p : t) : t :=
  let 'mk b c ls le a r g o d l s n h k tr := p in mk b c ls le (f a) r g o d l s n h k tr.
Definition put_playbackRate (v : Positive) (p : t) : t :=
  let 'mk b c ls le a r g o d l s n h k tr := p in mk b c ls le a v g o d l s n h k tr.
Definition put_grainSize (v : Seconds) (p : t) : t :=
  let 'mk b c ls le a r g o d l s n h k tr := p in mk b c ls le a r v o d l s n h k tr.
Definition put_overlap (v : Seconds) (p : t) : t :=
  let 'mk b c ls le a r g o d l s n h k tr := p in mk b c ls le a r g v d l s n h k tr.
Definition put_detune (v : Cents) (p : t) : t :=
  let 'mk b c ls le a r g o d l s n h k tr := p in mk b c ls le a r g o v l s n h k tr.
Definition put_loop (v : bool) (p : t) : t :=
  let 'mk b c ls le a r g o d l s n h k tr := p in mk b c ls le a r g o d v s n h k tr.
Definition upd_state (f : StateTimeline.t -> StateTimeline.t) (p : t) : t :=
  let 'mk b c ls le a r g o d l s n h k tr := p in mk b c ls le a r g o d l (f s) n h k tr.
Definition put_now (v : Seconds) (p : t) : t :=
  let 'mk b c ls le a r g o d l s n h k tr := p in mk b c ls le a r g o d l s v h k tr.
Definition upd_sources (f : gmap ref ToneBufferSource.t -> gmap ref ToneBufferSource.t) (p : t) : t :=
  let 'mk b c ls le a r g o d l s n h k tr := p in mk b c ls le a r g o d l s n (f h) k tr.
Definition put_nextRef (v : ref) (p : t) : t :=
  let 'mk b c ls le a r g o d l s n h k tr := p in mk b c ls le a r g o d l s n h v tr.
Definition record (c : Call) (p : t) : t :=
  let 'mk b c0 ls le a r g o d l s n h k tr := p in mk b c0 ls le a r g o d l s n h k (tr ++ [c]).

(** How a method ends: it returns, or it throws; either way the object is
    left in some state. *)
Inductive Error := RangeError.

Inductive Completion :=
| Returned (p : t)
| Thrown (e : Error) (p : t).

Definition state_of (c : Completion) : t :=
  match c with
  | Returned p => p
  | Thrown _ p => p
  end.

(** Modelled from the spec: "[playbackRate] must exceed 0.001; failing this
    signals an out-of-range error".  [assertRange] of [core/util/Debug] is not
    under src/; the call [assertRange(rate, 0.001)] passes the bound as its
    second argument. *)
Definition assertRange (value gte : float) : bool := gte <? value.

(** The options of the constructor; [onload] only concerns the loading of the
    buffer and is left out. *)
Module Options.
Record t := mk {
  reverse : bool;
  url : option ToneAudioBuffer.Url;
  overlap : Seconds;
  grainSize : Seconds;
  playbackRate : Positive;
  detune : Cents;
  loop : bool;
  loopStart : Time;
  loopEnd : Time;
}.
End Options.

(** [GrainPlayer.getDefaults()] *)
Definition getDefaults : Options.t :=
  Options.mk false None 0.1 0.2 1 0 false (TimeNumber 0) (TimeNumber 0).

(** What callers ask of the player. *)
Inductive Request :=
| CallStart (time offset duration : option Time)
| CallStop (time : option Time)
| CallRestart (time offset duration : option Time)
| SetPlaybackRate (rate : Positive)
| SetGrainSize (size : Time)
| SetOverlap (time : Time)
| SetDetune (cents : Cents)
| SetLoop (flag : bool)
| SetLoopStart (time : Time)
| SetLoopEnd (time : Time)
| SetReverse (rev : bool).

(** What happens to the player: a caller's request, a tick or a stop event of
    the clock, the completion of a grain, time passing, the buffer loading. *)
Inductive Event :=
| Asked (rq : Request)
| Tick (time : Seconds)
| ClockStopped
| Ended (source : ref)
| Advanced (time : Seconds)
| BufferLoaded (length : Seconds).

Section WithHost.
Context `{Host}.

(** Modelled from the spec: times are "resolved ... from their input
    representation (which may be relative/symbolic)" to absolute seconds.
    [toSeconds] is inherited and not under src/: a number is already in
    seconds, a missing time means now, a string is for the host to read. *)
Definition toSeconds (p : t) (time : option Time) : Seconds :=
  match time with
  | None => now p
  | Some (TimeNumber n) => n
  | Some (TimeString s) => parseTime s
  end.

(** *** Calls on the collaborators *)

Definition clock_setFrequency (value : float) (time : Seconds) (p : t) : t :=
  record (ClockSetFrequency value time) (upd_clock (Clock.setFrequency value time) p).

Definition clock_start (time : Seconds) (offset : float) (p : t) : t :=
  record (ClockStart time offset) (upd_clock (Clock.start time offset) p).

Definition clock_stop (time : Seconds) (p : t) : t :=
  record (ClockStop time) (upd_clock (Clock.stop time) p).

(** [new ToneBufferSource({...}).connect(this.output)]: a fresh object *)
Definition new_source (g : ToneBufferSource.t) (p : t) : ref * t :=
  let r := nextRef p in
  (r, record (SourceNew r)
        (put_nextRef (S r)
           (upd_sources (insert r (ToneBufferSource.connect g)) p))).

Definition source_start (r : ref) (time offset : Seconds) (p : t) : t :=
  record (SourceStart r time offset)
    (upd_sources (alter (ToneBufferSource.start time offset) r) p).

Definition source_stop (r : ref) (time : Seconds) (p : t) : t :=
  record (SourceStop r time)
    (upd_sources (alter (ToneBufferSource.stop time) r) p).

Definition source_set_fadeOut (r : ref) (v : Seconds) (p : t) : t :=
  record (SourceSetFadeOut r v)
    (upd_sources (alter (ToneBufferSource.set_fadeOut v) r) p).

Definition source_set_onended (r : ref) (p : t) : t :=
  upd_sources (alter ToneBufferSource.set_onended r) p.

(** [this.onstop(this)]: the caller's stop notification *)
Definition onstop (p : t) : t := record OnStop p.

(** *** Accessors *)

(** The playback rate of the sample *)
Definition playbackRate (p : t) : Positive := _playbackRate p.

(** The size of each chunk of audio that the buffer is chopped into and
    played back at. *)
Definition grainSize (p : t) : Seconds := _grainSize p.

(** The duration of the cross-fade between successive grains. *)
Definition overlap (p : t) : Seconds := _overlap p.

Definition set_grainSize (size : Time) (p : t) : t :=
  let p := put_grainSize (toSeconds p (Some size)) p in
  clock_setFrequency (_playbackRate p / _grainSize p) (now p) p.

Definition set_playbackRate (rate : Positive) (p : t) : Completion :=
  if assertRange rate 0.001 then
    let p := put_playbackRate rate p in
    Returned (set_grainSize (TimeNumber (_grainSize p)) p)
  else Thrown RangeError p.

Definition set_loopStart (time : Time) (p : t) : t :=
  put_loopStart (toSeconds p (Some time)) p.

Definition set_loopEnd (time : Time) (p : t) : t :=
  put_loopEnd (toSeconds p (Some time)) p.

Definition set_reverse (rev : bool) (p : t) : t :=
  upd_buffer (ToneAudioBuffer.set_reverse rev) p.

Definition set_overlap (time : Time) (p : t) : t :=
  put_overlap (toSeconds p (Some time)) p.

(** *** Start, stop, restart *)

(** Internal stop method *)
Definition _stop (time : option Time) (p : t) : t :=
  clock_stop (toSeconds p time) p.

(** Modelled from the spec: "[stop(time)]: valid only from started.  Halts the
    Periodic Clock at [time] ...  Transition: started -> stopped", and
    "calling stop ... while stopped ... is a no-op".  The public [stop] is
    inherited from [Source], which is not under src/. *)
Definition stop (time : option Time) (p : t) : t :=
  let time := toSeconds p time in
  if bool_decide (StateTimeline.getValueAtTime time (_state p) = started) then
    upd_state (StateTimeline.setStateAtTime stopped time)
      (_stop (Some (TimeNumber time)) p)
  else p.

(** Internal start method *)
Definition _start (time offset duration : option Time) (p : t) : t :=
  let offset := defaultArg offset (TimeNumber 0) in
  let offset := toSeconds p (Some offset) in
  let time := toSeconds p time in
  let grainSize := 1 / Param.getValueAtTime time (Clock.frequency (_clock p)) in
  let p := clock_start time (offset / grainSize) p in
  if truthy duration then
    stop (Some (TimeNumber (time + toSeconds p duration))) p
  else p.

(** Modelled from the spec: "[start(time, offset, duration)]: valid only from
    stopped ...  Transition: stopped -> started", and "start while already
    started is a no-op".  The public [start] is inherited from [Source], which
    is not under src/; it marks the player started and runs [_start]. *)
Definition start (time offset duration : option Time) (p : t) : t :=
  let time := toSeconds p time in
  if bool_decide (StateTimeline.getValueAtTime time (_state p) = stopped) then
    _start (Some (TimeNumber time)) offset duration
      (upd_state (StateTimeline.setStateAtTime started time) p)
  else p.

(** Stop and then restart the player from the beginning (or offset) *)
Definition restart (time offset duration : option Time) (p : t) : t :=
  let time := toSeconds p time in
  if bool_decide (StateTimeline.getValueAtTime time (_state p) = started) then
    let p := _stop (Some (TimeNumber time)) p in
    _start (Some (TimeNumber time)) offset duration p
  else p.

(** *** The handlers *)

(** Invoked when the clock is stopped *)
Definition _onstop (time : Seconds) (p : t) : t :=
  let p :=
    foldl (fun p source => source_stop source time (source_set_fadeOut source 0 p))
      p (_activeSources p) in
  onstop p.

(** the offset [_tick] computes: the tick count times the grain duration *)
Definition tickOffset (time : Seconds) (p : t) : Seconds :=
  let ticks := getTicksAtTime (_clock p) time in
  let grainSize := 1 / Param.getValueAtTime time (Clock.frequency (_clock p)) in
  ticks * grainSize.

(** the test at the head of [_tick]: not looping, and past the end of the
    buffer *)
Definition endOfBuffer (time : Seconds) (p : t) : bool :=
  negb (loop p) && (ToneAudioBuffer.duration (buffer p) <? tickOffset time p).

(** [source.onended]: remove the grain from the active sources when it is
    done *)
Definition onended (source : ref) (p : t) : t :=
  match list_find (fun r => r = source) (_activeSources p) with
  | Some (index, _) => upd_activeSources (delete index) p
  | None => p
  end.

(** Invoked on each clock tick. *)
Definition _tick (time : Seconds) (p : t) : t :=
  let ticks := getTicksAtTime (_clock p) time in
  let grainSize := 1 / Param.getValueAtTime time (Clock.frequency (_clock p)) in
  let offset := ticks * grainSize in
  if negb (loop p) && (ToneAudioBuffer.duration (buffer p) <? offset) then
    stop (Some (TimeNumber time)) p
  else
    let fadeIn := if offset <? _overlap p then 0 else _overlap p in
    let '(source, p) :=
      new_source
        (ToneBufferSource.mk fadeIn (_overlap p) (loop p) (_loopStart p)
           (_loopEnd p) (intervalToFrequencyRatio (detune p / 100))
           false None None false) p in
    let p := source_start source time (_grainSize p * ticks) p in
    let p := source_stop source (time + _grainSize p / playbackRate p) p in
    let p := upd_activeSources (fun a => a ++ [source]) p in
    source_set_onended source p.

(** *** Construction *)

(** [new GrainPlayer(options)], at the context time [currentTime]: the fields
    are initialised, then the setters run in the order of the source; the stop
    handler it registers on the clock is the [ClockStopped] step below. *)
Definition constructor (options : Options.t) (currentTime : Seconds) : Completion :=
  let p :=
    mk (ToneAudioBuffer.create (Options.reverse options) (Options.url options))
       (Clock.create (1 / Options.grainSize options))
       0 0 []
       (Options.playbackRate options) (Options.grainSize options)
       (Options.overlap options) (Options.detune options) false
       [] currentTime ∅ 0%nat [] in
  let p := set_overlap (TimeNumber (Options.overlap options)) p in
  let p := put_loop (Options.loop options) p in
  match set_playbackRate (Options.playbackRate options) p with
  | Thrown e p => Thrown e p
  | Returned p =>
      let p := set_grainSize (TimeNumber (Options.grainSize options)) p in
      let p := set_loopStart (Options.loopStart options) p in
      let p := set_loopEnd (Options.loopEnd options) p in
      Returned (set_reverse (Options.reverse options) p)
  end.

(** *** The scheduler as a transition system *)

Definition perform (rq : Request) (p : t) : Completion :=
  match rq with
  | CallStart time offset duration => Returned (start time offset duration p)
  | CallStop time => Returned (stop time p)
  | CallRestart time offset duration => Returned (restart time offset duration p)
  | SetPlaybackRate rate => set_playbackRate rate p
  | SetGrainSize size => Returned (set_grainSize size p)
  | SetOverlap time => Returned (set_overlap time p)
  | SetDetune cents => Returned (put_detune cents p)
  | SetLoop flag => Returned (put_loop flag p)
  | SetLoopStart time => Returned (set_loopStart time p)
  | SetLoopEnd time => Returned (set_loopEnd time p)
  | SetReverse rev => Returned (set_reverse rev p)
  end.

(** Modelled from the spec: the clock invokes the tick callback while it runs
    and fires "a stopped event ... once per stop with the stop time"; a grain
    "emits a completion notification when its sound fully stops"; the buffer
    reports its duration once loaded.  The event loop is the host's. *)
Inductive step : t -> Event -> t -> Prop :=
| step_asked rq p :
    step p (Asked rq) (state_of (perform rq p))
| step_tick time p :
    Clock.running time (_clock p) = true ->
    step p (Tick time) (_tick time p)
| step_clock_stopped time rest p :
    Clock.stopEvents (_clock p) = time :: rest ->
    step p ClockStopped
      (_onstop time
         (upd_clock (fun c => Clock.mk (Clock.frequency c) (Clock.state c)
                                (Clock.tickOffset c) rest) p))
| step_ended source p :
    is_Some (sources p !! source) ->
    step p (Ended source) (onended source p)
| step_advanced time p :
    step p (Advanced time) (put_now time p)
| step_loaded length p :
    step p (BufferLoaded length)
      (upd_buffer (fun b => ToneAudioBuffer.mk length (ToneAudioBuffer.reverse b) true) p).

Inductive reachable : t -> Prop :=
| reachable_new options currentTime p :
    constructor options currentTime = Returned p -> reachable p
| reachable_step p ev q :
    reachable p -> step p ev q -> reachable q.

(** *** Vocabulary for the properties *)

(** the grain a tick at [time] creates, as it is once [_tick] returns *)
Definition spawned (time : Seconds) (p : t) : ToneBufferSource.t :=
  let k := getTicksAtTime (_clock p) time in
  ToneBufferSource.mk
    (if tickOffset time p <? _overlap p then 0 else _overlap p)
    (_overlap p) (loop p) (_loopStart p) (_loopEnd p)
    (intervalToFrequencyRatio (detune p / 100)) true
    (Some (time, _grainSize p * k))
    (Some (time + _grainSize p / _playbackRate p)) true.

(** what [indexOf] followed by [splice(index, 1)] does to an array *)
Definition spliceOut (source : ref) (l : list ref) : list ref :=
  match list_find (fun r => r = source) l with
  | Some (index, _) => delete index l
  | None => l
  end.

(** what the stop handler does to one grain, and to a list of them *)
Definition forced (time : Seconds) (g : ToneBufferSource.t) : ToneBufferSource.t :=
  ToneBufferSource.stop time (ToneBufferSource.set_fadeOut 0 g).

Definition forceAll (time : Seconds) (l : list ref) (p : t) : t :=
  foldl (fun p source => source_stop source time (source_set_fadeOut source 0 p)) p l.

(** the active sources are distinct grains that exist *)
Definition well_formed (p : t) : Prop :=
  NoDup (_activeSources p) /\
  Forall (fun r => (r < nextRef p)%nat) (_activeSources p).



End WithHost.
End GrainPlayer.


(** ** A session

    One concrete player, to run the definitions on. *)

Module Session.
Import GrainPlayer.
Local Open Scope float_scope.

(** A host to run the scheduler on: times are given as numbers, the clock has
    ticked at its present frequency since time 0 on top of its initial tick
    count, and grains are not transposed. *)
Definition host : Host := {|
  parseTime := fun _ => 0;
  getTicksAtTime := fun c time =>
    Clock.offsetAt time c + time * Param.getValueAtTime time (Clock.frequency c);
  intervalToFrequencyRatio := fun _ => 1;
|}.

(** the default options, on two seconds of decoded audio *)
Definition options : Options.t :=
  Options.mk false (Some (ToneAudioBuffer.Decoded 2)) 0.1 0.2 1 0 false
    (TimeNumber 0) (TimeNumber 0).

(** a player just built at time 0 *)
Definition fresh : t := state_of (constructor (H := host) options 0).


(** ... started at time 0 from the beginning of the buffer *)
Definition playing : t := start (H := host) (Some (TimeNumber 0)) None None fresh.

(** ... and after its first tick: one grain is sounding *)
Definition sounding : t := _tick (H := host) 0 playing.



End Session.


(** ** Grains over a run *)

Module Lifecycle.
Import GrainPlayer.

(** a grain as [_tick] leaves every grain it creates: connected, started, with
    a stop scheduled and a completion callback *)
Definition scheduled (g : ToneBufferSource.t) : Prop :=
  ToneBufferSource.connected g = true /\
  is_Some (ToneBufferSource.startCall g) /\
  is_Some (ToneBufferSource.stopCall g) /\
  ToneBufferSource.onended g = true.


(** the store holds exactly the grains created so far, all of them scheduled,
    and the active sources are listed oldest first *)
Definition tidy (p : t) : Prop :=
  (forall r, is_Some (sources p !! r) <-> (r < nextRef p)%nat) /\
  (forall r g, sources p !! r = Some g -> scheduled g) /\
  Forall (fun r => (r < nextRef p)%nat) (_activeSources p) /\
  StronglySorted lt (_activeSources p).

Section WithHost.
Context `{Host}.

(** some events lead from one player to another *)
Definition run : t -> t -> Prop := rtc (fun p q => exists ev, step p ev q).

End WithHost.

End Lifecycle.


(** * Properties *)

(** ** Order facts on binary64 values *)

Module FloatOrder.

Local Open Scope float_scope.

Ltac cmp_cases :=
  repeat match goal with
  | |- context [Z.compare ?a ?b] =>
      destruct (Z.compare_spec a b); try lia; subst
  | |- context [Pos.compare_cont Eq ?a ?b] =>
      change (Pos.compare_cont Eq a b) with (Pos.compare a b);
      destruct (Pos.compare_spec a b); try lia; subst
  end.

Ltac sf_cases :=
  repeat match goal with s : bool |- _ => destruct s end;
  cbn; try discriminate; try reflexivity;
  cmp_cases; cbn; try discriminate; try reflexivity.

Lemma SFleb_not_SFltb (a b : spec_float) :
  SFleb a b = true -> SFltb b a = false.
Proof.
  unfold SFltb, SFleb.
  destruct a as [sa|sa| |sa ma ea], b as [sb|sb| |sb mb eb]; sf_cases.
Qed.


Lemma SFltb_trans (a b c : spec_float) :
  SFltb a b = true -> SFltb b c = true -> SFltb a c = true.
Proof.
  unfold SFltb.
  destruct a as [sa|sa| |sa ma ea], b as [sb|sb| |sb mb eb],
           c as [sc|sc| |sc mc ec]; sf_cases.
Qed.




Lemma leb_not_ltb (x y : float) : (x <=? y) = true -> (y <? x) = false.
Proof. rewrite leb_spec, ltb_spec. apply SFleb_not_SFltb. Qed.


Lemma ltb_trans (x y z : float) :
  (x <? y) = true -> (y <? z) = true -> (x <? z) = true.
Proof. rewrite !ltb_spec. apply SFltb_trans. Qed.

Lemma ltb_irrefl (x : float) : (x <? x) = false.
Proof.
  destruct (x <? x) eqn:E; [|reflexivity].
  rewrite ltb_spec in E. unfold SFltb in E.
  destruct (Prim2SF x) as [s|s| |s m e]; revert E; sf_cases.
Qed.


End FloatOrder.

(** ** Looking up a timeline after changing it *)

Module TimelineFacts.
Section Facts.
Context {A : Type}.
Local Open Scope float_scope.
Import FloatOrder.

(** An event added at [time] is the one found at [time]. *)
Lemma valueAt_add (dflt : A) (time : Seconds) (v : A) (tl : Timeline.t A) :
  Timeline.valueAt dflt time (Timeline.add (time, v) tl) = v.
Proof.
  revert dflt. induction tl as [|x rest IH]; intros dflt; cbn.
  - now rewrite ltb_irrefl.
  - destruct (time <? x.1) eqn:E; cbn.
    + now rewrite ltb_irrefl, E.
    + rewrite E. apply IH.
Qed.



End Facts.
End TimelineFacts.


(** ** The scheduler *)

Section Scheduler.
Context `{Host}.
Import GrainPlayer.
Local Open Scope float_scope.

(** *** The setters *)

Lemma frequency_after_set_grainSize (size : Time) (p : t) :
  let q := set_grainSize size p in
  grainSize q = toSeconds p (Some size) /\
  playbackRate q = playbackRate p /\
  now q = now p /\
  calls q = calls p ++ [ClockSetFrequency (playbackRate q / grainSize q) (now q)] /\
  Param.getValueAtTime (now q) (Clock.frequency (_clock q))
    = playbackRate q / grainSize q.
Proof.
  destruct p; cbn. do 4 (split; [reflexivity|]).
  unfold Param.getValueAtTime, Param.setValueAtTime; cbn.
  apply TimelineFacts.valueAt_add.
Qed.

(** C1.  For every playback rate above 0.001 and every grain size, right after
    either setter has run, the clock's tick frequency read at the current time
    is [playbackRate / grainSize]: the rate setter stores the rate, keeps the
    grain size and re-applies the frequency at the current time; the size
    setter stores the size, keeps the rate and applies the frequency at the
    current time. *)
Theorem frequency_follows_rate_and_size (p : t) (rate : Positive) (size : Time) :
  (0.001 <? rate) = true ->
  (exists q,
      set_playbackRate rate p = Returned q /\
      playbackRate q = rate /\
      grainSize q = grainSize p /\
      calls q = calls p ++ [ClockSetFrequency (playbackRate q / grainSize q) (now q)] /\
      Param.getValueAtTime (now q) (Clock.frequency (_clock q))
        = playbackRate q / grainSize q) /\
  (let q := set_grainSize size p in
   grainSize q = toSeconds p (Some size) /\
   playbackRate q = playbackRate p /\
   calls q = calls p ++ [ClockSetFrequency (playbackRate q / grainSize q) (now q)] /\
   Param.getValueAtTime (now q) (Clock.frequency (_clock q))
     = playbackRate q / grainSize q).
Proof.
  intros Hrate. split.
  - unfold set_playbackRate, assertRange. rewrite Hrate.
    eexists. split; [reflexivity|].
    destruct (frequency_after_set_grainSize
                (TimeNumber (_grainSize (put_playbackRate rate p)))
                (put_playbackRate rate p)) as (Hsize & Hr & _ & Hc & Hfreq).
    split; [rewrite Hr; now destruct p|].
    split; [rewrite Hsize; now destruct p|].
    split; [rewrite Hc; now destruct p|exact Hfreq].
  - destruct (frequency_after_set_grainSize size p) as (Hsize & Hr & _ & Hc & Hfreq).
    split; [assumption|]. split; [assumption|]. split; assumption.
Qed.

(** C7.  A rate that is at most 0.001 makes the setter throw a range error and
    leaves the player as it was, stored rate and clock frequency included; a
    rate above 0.001 is accepted and stored. *)
Theorem playbackRate_range_checked (p : t) (rate : Positive) :
  ((rate <=? 0.001) = true -> set_playbackRate rate p = Thrown RangeError p) /\
  ((0.001 <? rate) = true ->
   exists q, set_playbackRate rate p = Returned q /\ playbackRate q = rate).
Proof.
  unfold set_playbackRate, assertRange. split; intros Hrate.
  - now rewrite (FloatOrder.leb_not_ltb _ _ Hrate).
  - rewrite Hrate. eexists. split; [reflexivity|]. now destruct p.
Qed.

(** C10.  The overlap setter takes any time, never throws, stores its value in
    seconds and changes no other field: the clock (and so its frequency), the
    rate, the grain size, the active sources and the grains are as before. *)
Theorem set_overlap_only_overlap (p : t) (time : Time) :
  let q := set_overlap time p in
  overlap q = toSeconds p (Some time) /\
  q = put_overlap (toSeconds p (Some time)) p /\
  _clock q = _clock p /\
  playbackRate q = playbackRate p /\
  grainSize q = grainSize p /\
  _activeSources q = _activeSources p /\
  sources q = sources p /\
  _state q = _state p /\
  calls q = calls p.
Proof. destruct p; cbn. repeat split. Qed.

(** *** Ticks *)

(** A tick that is not at the end of the buffer creates one grain, starts it,
    schedules its stop, and appends it to the active sources; nothing else
    changes. *)
Lemma tick_spawns (time : Seconds) (p : t) :
  endOfBuffer time p = false ->
  let q := _tick time p in
  let r := nextRef p in
  sources q = <[r := spawned time p]> (sources p) /\
  _activeSources q = _activeSources p ++ [r] /\
  nextRef q = S r /\
  calls q = calls p ++
    [SourceNew r;
     SourceStart r time (_grainSize p * getTicksAtTime (_clock p) time);
     SourceStop r (time + _grainSize p / _playbackRate p)] /\
  _clock q = _clock p /\
  _state q = _state p.
Proof.
  intros Hend. unfold _tick. unfold endOfBuffer, tickOffset in Hend.
  rewrite Hend. destruct p; cbn.
  rewrite !alter_insert_eq, <- !app_assoc. repeat split.
Qed.

Lemma tick_stops (time : Seconds) (p : t) :
  endOfBuffer time p = true -> _tick time p = stop (Some (TimeNumber time)) p.
Proof.
  intros Hend. unfold _tick. unfold endOfBuffer, tickOffset in Hend.
  now rewrite Hend.
Qed.

(** [stop] creates and retires no grain. *)
Lemma stop_keeps_grains (time : option Time) (p : t) :
  let q := stop time p in
  _activeSources q = _activeSources p /\ sources q = sources p /\
  nextRef q = nextRef p /\ now q = now p.
Proof.
  unfold stop. case_bool_decide; [|done]. now destruct p.
Qed.




(** C3.  The grain spawned by a tick at [time] whose tick index is [k] is
    started at [time] at buffer offset [grainSize * k] and is scheduled to
    stop at [time + grainSize / playbackRate]; it is the grain appended to the
    active sources. *)
Theorem grain_started_and_stopped (p : t) (time : Seconds) :
  endOfBuffer time p = false ->
  let q := _tick time p in
  let k := getTicksAtTime (_clock p) time in
  exists g,
    sources q !! nextRef p = Some g /\
    _activeSources q = _activeSources p ++ [nextRef p] /\
    ToneBufferSource.startCall g = Some (time, grainSize p * k) /\
    ToneBufferSource.stopCall g = Some (time + grainSize p / playbackRate p) /\
    calls q = calls p ++
      [SourceNew (nextRef p);
       SourceStart (nextRef p) time (grainSize p * k);
       SourceStop (nextRef p) (time + grainSize p / playbackRate p)].
Proof.
  intros Hend q k.
  destruct (tick_spawns time p Hend) as (Hs & Ha & _ & Hc & _).
  exists (spawned time p). subst q. rewrite Hs, lookup_insert_eq.
  split; [reflexivity|]. split; [exact Ha|].
  split; [reflexivity|]. split; [reflexivity|]. exact Hc.
Qed.

(** C4.  The grain spawned by a tick has fade-in 0 when the offset the tick
    computed is below the overlap and fade-in equal to the overlap otherwise;
    its fade-out is the overlap. *)
Theorem grain_fades (p : t) (time : Seconds) :
  endOfBuffer time p = false ->
  let q := _tick time p in
  exists g,
    sources q !! nextRef p = Some g /\
    ((tickOffset time p <? overlap p) = true -> ToneBufferSource.fadeIn g = 0) /\
    ((tickOffset time p <? overlap p) = false ->
     ToneBufferSource.fadeIn g = overlap p) /\
    ToneBufferSource.fadeOut g = overlap p.
Proof.
  intros Hend q.
  destruct (tick_spawns time p Hend) as (Hs & _).
  exists (spawned time p). subst q. rewrite Hs, lookup_insert_eq.
  split; [reflexivity|]. unfold spawned, overlap; cbn.
  split; [now intros ->|]. split; [now intros ->|reflexivity].
Qed.

(** *** The active sources *)

Lemma spliceOut_cons (source x : ref) (l : list ref) :
  spliceOut source (x :: l) = if decide (x = source) then l else x :: spliceOut source l.
Proof.
  unfold spliceOut. cbn. case_decide; [done|].
  destruct (list_find _ l) as [[i y]|]; done.
Qed.

Lemma spliceOut_absent (source : ref) (l : list ref) :
  source ∉ l -> spliceOut source l = l.
Proof.
  induction l as [|x l IH]; [done|]. rewrite spliceOut_cons.
  intros Hnot. apply not_elem_of_cons in Hnot as [Hne Hnot].
  case_decide; [congruence|]. now rewrite IH.
Qed.

Lemma spliceOut_subset (source r : ref) (l : list ref) :
  r ∈ spliceOut source l -> r ∈ l.
Proof.
  induction l as [|x l IH]; [done|]. rewrite spliceOut_cons.
  case_decide; [apply list_elem_of_further|].
  intros [->|Hin]%elem_of_cons; [left|right; auto].
Qed.

Lemma spliceOut_others (source r : ref) (l : list ref) :
  r <> source -> r ∈ l -> r ∈ spliceOut source l.
Proof.
  intros Hne. induction l as [|x l IH]; [done|]. rewrite spliceOut_cons.
  intros [->|Hin]%elem_of_cons; case_decide; subst; try done.
  - left.
  - right. auto.
Qed.

Lemma spliceOut_NoDup (source : ref) (l : list ref) :
  NoDup l -> NoDup (spliceOut source l) /\ source ∉ spliceOut source l.
Proof.
  induction 1 as [|x l Hx Hl IH]; [split; [constructor|apply not_elem_of_nil]|].
  rewrite spliceOut_cons. case_decide; subst.
  - done.
  - destruct IH as [IH1 IH2]. split.
    + constructor; [|done]. intros Hin. apply Hx. eapply spliceOut_subset, Hin.
    + apply not_elem_of_cons. split; [congruence|done].
Qed.

Lemma onended_active (source : ref) (p : t) :
  onended source p = upd_activeSources (spliceOut source) p.
Proof.
  destruct p as [b c ls le a r g o d l s n h k tr].
  unfold onended, spliceOut; cbn.
  destruct (list_find _ a) as [[i y]|]; reflexivity.
Qed.


Lemma spliceOut_comm (a b : ref) (l : list ref) :
  spliceOut a (spliceOut b l) = spliceOut b (spliceOut a l).
Proof.
  induction l as [|x l IH]; [reflexivity|].
  rewrite !spliceOut_cons.
  destruct (decide (x = a)) as [Ha|Ha], (decide (x = b)) as [Hb|Hb];
    rewrite ?spliceOut_cons, ?decide_True, ?decide_False by done;
    congruence.
Qed.

Ltac unfold_methods :=
  unfold perform, start, restart, _start, stop, _stop, set_playbackRate,
    assertRange, set_grainSize, set_overlap, set_loopStart, set_loopEnd,
    set_reverse, clock_start, clock_stop, clock_setFrequency in *.

Ltac frame :=
  unfold_methods;
  repeat match goal with
  | |- context [bool_decide ?P] => destruct (bool_decide P)
  | |- context [truthy ?d] => destruct (truthy d)
  | |- context [(?a <? ?b)%float] => destruct (a <? b)%float
  end;
  match goal with p : t |- _ => destruct p end; cbn; auto.

(** Only ticks and completion notifications touch the active sources and the
    store's next reference. *)
Lemma perform_keeps_grains (rq : Request) (p : t) :
  let q := state_of (perform rq p) in
  _activeSources q = _activeSources p /\ nextRef q = nextRef p.
Proof. destruct rq; frame. Qed.

Lemma forceAll_spec (time : Seconds) (l : list ref) (p : t) :
  let q := forceAll time l p in
  _activeSources q = _activeSources p /\
  nextRef q = nextRef p /\
  _clock q = _clock p /\
  _state q = _state p /\
  calls q = calls p ++
    concat (map (fun r => [SourceSetFadeOut r 0; SourceStop r time]) l) /\
  (forall r, r ∈ l -> sources q !! r = forced time <$> sources p !! r) /\
  (forall r, r ∉ l -> sources q !! r = sources p !! r).
Proof.
  revert p. induction l as [|x l IH]; intros p.
  - cbn. rewrite app_nil_r. repeat split; try done.
    intros r Hr. now apply elem_of_nil in Hr.
  - change (forceAll time (x :: l) p)
      with (forceAll time l (source_stop x time (source_set_fadeOut x 0 p))).
    cbn zeta in IH |- *.
    destruct (IH (source_stop x time (source_set_fadeOut x 0 p)))
      as (Ha & Hn & Hc & Hs & Hcalls & Hin & Hout).
    assert (Hx : forall r, sources (source_stop x time (source_set_fadeOut x 0 p)) !! r
                 = if decide (x = r) then forced time <$> sources p !! r
                   else sources p !! r).
    { intros r. destruct p; cbn. rewrite alter_alter_eq, lookup_alter.
      case_decide; subst; reflexivity. }
    split; [rewrite Ha; now destruct p|].
    split; [rewrite Hn; now destruct p|].
    split; [rewrite Hc; now destruct p|].
    split; [rewrite Hs; now destruct p|].
    split; [rewrite Hcalls; destruct p; cbn; now rewrite <- !app_assoc|].
    split.
    + intros r Hr. destruct (decide (r ∈ l)) as [Hl|Hl].
      * rewrite (Hin r Hl), Hx. case_decide; [|done].
        destruct (sources p !! r); reflexivity.
      * rewrite (Hout r Hl), Hx. apply elem_of_cons in Hr as [->|Hr]; [|done].
        now rewrite decide_True.
    + intros r Hr. apply not_elem_of_cons in Hr as [Hne Hr].
      rewrite (Hout r Hr), Hx. now rewrite decide_False.
Qed.

Lemma onstop_forceAll (time : Seconds) (p : t) :
  _onstop time p = onstop (forceAll time (_activeSources p) p).
Proof. reflexivity. Qed.


Lemma constructor_no_grains (options : Options.t) (currentTime : Seconds) (p : t) :
  constructor options currentTime = Returned p ->
  _activeSources p = [] /\ nextRef p = 0%nat.
Proof.
  unfold constructor, set_playbackRate, assertRange.
  destruct (0.001 <? Options.playbackRate options); [|discriminate].
  intros [= <-]. split; reflexivity.
Qed.

Lemma step_well_formed (p q : t) (ev : Event) :
  step p ev q -> well_formed p -> well_formed q.
Proof.
  unfold well_formed. intros Hstep [Hnd Hlt].
  destruct Hstep as [rq p|time p Hrun|time rest p Hev|source p Hsrc|time p|len p].
  - destruct (perform_keeps_grains rq p) as [-> ->]. done.
  - destruct (endOfBuffer time p) eqn:Hend.
    + rewrite (tick_stops _ _ Hend).
      destruct (stop_keeps_grains (Some (TimeNumber time)) p) as (-> & _ & -> & _).
      done.
    + destruct (tick_spawns _ _ Hend) as (_ & -> & -> & _). split.
      * apply NoDup_app. split; [done|]. split; [|apply NoDup_singleton].
        intros r Hr ->%list_elem_of_singleton.
        rewrite Forall_forall in Hlt. specialize (Hlt _ Hr). lia.
      * apply Forall_app. split.
        -- eapply Forall_impl; [exact Hlt|]. cbn. lia.
        -- repeat constructor.
  - rewrite onstop_forceAll.
    match goal with |- context [forceAll ?t ?l ?x] =>
      destruct (forceAll_spec t l x) as (Ha & Hn & _) end.
    assert (Hq : forall x, _activeSources (onstop x) = _activeSources x /\
                           nextRef (onstop x) = nextRef x) by (intros []; done).
    rewrite (proj1 (Hq _)), (proj2 (Hq _)), Ha, Hn. now destruct p.
  - rewrite onended_active.
    destruct (spliceOut_NoDup source _ Hnd) as [Hnd' _].
    assert (Hq : _activeSources (upd_activeSources (spliceOut source) p)
                 = spliceOut source (_activeSources p) /\
                 nextRef (upd_activeSources (spliceOut source) p) = nextRef p)
      by now destruct p.
    destruct Hq as [-> ->]. split; [done|].
    rewrite Forall_forall in Hlt |- *. intros r Hr.
    apply Hlt. eapply spliceOut_subset, Hr.
  - now destruct p.
  - now destruct p.
Qed.

(** Every reachable player is well formed: no grain is listed twice. *)
Lemma reachable_well_formed (p : t) : reachable p -> well_formed p.
Proof.
  induction 1 as [options currentTime p Hnew|p ev q _ IH Hstep].
  - destruct (constructor_no_grains _ _ _ Hnew) as [Ha Hn].
    unfold well_formed. rewrite Ha. split; constructor.
  - eapply step_well_formed; eassumption.
Qed.

(** C9.  In a reachable player, the completion handler of a grain removes
    that grain from the active sources and leaves the other grains listed; run
    a second time it changes nothing, as whenever the grain is not listed; and
    the handlers of two grains may run in either order. *)
Theorem onended_removes_once (p : t) (source : ref) :
  reachable p ->
  let q := onended source p in
  (source ∉ _activeSources q) /\
  (forall r, r <> source -> (r ∈ _activeSources q <-> r ∈ _activeSources p)) /\
  sources q = sources p /\
  onended source q = q /\
  (source ∉ _activeSources p -> q = p) /\
  (forall other, onended other q = onended source (onended other p)).
Proof.
  intros Hreach q. subst q.
  destruct (reachable_well_formed _ Hreach) as [Hnd _].
  destruct (spliceOut_NoDup source _ Hnd) as [_ Hgone].
  rewrite !onended_active.
  assert (Ha : forall f x, _activeSources (upd_activeSources f x) = f (_activeSources x))
    by (intros f []; reflexivity).
  rewrite !Ha. split; [exact Hgone|]. split; [|split; [|split; [|split]]].
  - intros r Hne. split; [apply spliceOut_subset|now apply spliceOut_others].
  - now destruct p.
  - destruct p; cbn in *. now rewrite (spliceOut_absent _ _ Hgone).
  - intros Habs. destruct p; cbn in *. now rewrite (spliceOut_absent _ _ Habs).
  - intros other. rewrite !onended_active. destruct p; cbn.
    now rewrite spliceOut_comm.
Qed.




(** *** Start, stop and restart *)






End Scheduler.


(** ** The session: the properties at work on one player *)

Module SessionChecks.
Import GrainPlayer Session.
Local Open Scope float_scope.

Lemma fresh_built : constructor (H := host) options 0 = Returned fresh.
Proof. reflexivity. Qed.

Lemma sounding_reachable : reachable (H := host) sounding.
Proof.
  apply (reachable_step (H := host) playing (Tick 0)).
  - apply (reachable_step (H := host) fresh
             (Asked (CallStart (Some (TimeNumber 0)) None None))).
    + exact (reachable_new (H := host) options 0 fresh fresh_built).
    + exact (step_asked (H := host) _ fresh).
  - apply (step_tick (H := host)). reflexivity.
Defined.

Lemma frequency_follows_rate_and_size_witness :
  exists q,
    set_playbackRate (H := host) 2 fresh = Returned q /\
    Param.getValueAtTime (now q) (Clock.frequency (_clock q)) = 2 / 0.2.
Proof.
  destruct (frequency_follows_rate_and_size (H := host) fresh 2 (TimeNumber 0.5) eq_refl)
    as [(q & Hq & Hr & Hg & _ & Hf) _].
  exists q. split; [exact Hq|]. rewrite Hf, Hr, Hg. reflexivity.
Defined.




Lemma grain_started_and_stopped_witness :
  exists g,
    sources sounding !! 0%nat = Some g /\
    ToneBufferSource.startCall g = Some (0, 0.2 * 0) /\
    ToneBufferSource.stopCall g = Some (0 + 0.2 / 1).
Proof.
  destruct (grain_started_and_stopped (H := host) playing 0 eq_refl)
    as (g & Hg & _ & Hstart & Hstop & _).
  exists g. split; [exact Hg|]. split; [exact Hstart|exact Hstop].
Defined.

Lemma grain_fades_witness :
  exists g,
    sources sounding !! 0%nat = Some g /\
    ToneBufferSource.fadeIn g = 0 /\
    ToneBufferSource.fadeOut g = 0.1.
Proof.
  destruct (grain_fades (H := host) playing 0 eq_refl) as (g & Hg & Hin & _ & Hout).
  exists g. split; [exact Hg|]. split; [exact (Hin eq_refl)|exact Hout].
Defined.





Lemma playbackRate_range_checked_witness :
  set_playbackRate (H := host) 0.0005 fresh = Thrown RangeError fresh /\
  exists q, set_playbackRate (H := host) 0.5 fresh = Returned q /\ playbackRate q = 0.5.
Proof.
  split.
  - exact (proj1 (playbackRate_range_checked (H := host) fresh 0.0005) eq_refl).
  - exact (proj2 (playbackRate_range_checked (H := host) fresh 0.5) eq_refl).
Defined.



Lemma onended_removes_once_witness :
  (0%nat ∉ _activeSources (onended 0%nat sounding)) /\
  onended 0%nat (onended 0%nat sounding) = onended 0%nat sounding.
Proof.
  destruct (onended_removes_once (H := host) sounding 0%nat sounding_reachable)
    as (Hgone & _ & _ & Hidem & _).
  split; [exact Hgone|exact Hidem].
Defined.

End SessionChecks.


(** * Further properties *)

(** ** One more fact about timelines *)

Module TimelineMore.
Section Facts.
Context {A : Type}.
Local Open Scope float_scope.
Import FloatOrder.

(** An event added at [time] changes no value before [time]. *)
Lemma valueAt_add_earlier (dflt : A) (time at_ : Seconds) (v : A) (tl : Timeline.t A) :
  (at_ <? time) = true ->
  Timeline.valueAt dflt at_ (Timeline.add (time, v) tl) = Timeline.valueAt dflt at_ tl.
Proof.
  intros Hlt. revert dflt. induction tl as [|x rest IH]; intros dflt; cbn.
  - now rewrite Hlt.
  - destruct (time <? x.1) eqn:E; cbn.
    + rewrite Hlt. now rewrite (ltb_trans _ _ _ Hlt E).
    + destruct (at_ <? x.1); [reflexivity|apply IH].
Qed.
End Facts.
End TimelineMore.

(** ** Grains over a run, setters and restart *)

Section MoreScheduler.
Context `{Host}.
Import GrainPlayer Lifecycle.
Local Open Scope float_scope.

Ltac settle :=
  unfold perform, start, restart, _start, stop, _stop, set_playbackRate,
    assertRange, set_grainSize, set_overlap, set_loopStart, set_loopEnd,
    set_reverse, clock_start, clock_stop, clock_setFrequency in *;
  repeat match goal with
  | |- context [bool_decide ?P] => destruct (bool_decide P)
  | |- context [truthy ?d] => destruct (truthy d)
  | |- context [(?a <? ?b)%float] => destruct (a <? b)%float
  end;
  match goal with p : t |- _ => destruct p end; cbn; auto.

(** No request touches a grain: the setters, [start], [stop] and [restart]
    leave the store and the active sources as they are. *)
Lemma perform_keeps_store (rq : Request) (p : t) :
  let q := state_of (perform rq p) in
  sources q = sources p /\ _activeSources q = _activeSources p /\ nextRef q = nextRef p.
Proof. destruct rq; settle. Qed.

Lemma forced_scheduled (time : Seconds) (g : ToneBufferSource.t) :
  scheduled g -> scheduled (forced time g).
Proof. intros (Hc & Hs & _ & Ho). repeat split; cbn; eauto. Qed.


Lemma spawned_scheduled (time : Seconds) (p : t) : scheduled (spawned time p).
Proof. repeat split; cbn; eauto. Qed.

(** what a step does to the store, the next reference and the active
    sources *)
Lemma step_store (p q : t) (ev : Event) :
  step p ev q ->
  (sources q = sources p /\ nextRef q = nextRef p /\
   (_activeSources q = _activeSources p \/
    exists source, ev = Ended source /\
      _activeSources q = spliceOut source (_activeSources p))) \/
  (exists time, ev = Tick time /\
     sources q = <[nextRef p := spawned time p]> (sources p) /\
     nextRef q = S (nextRef p) /\
     _activeSources q = _activeSources p ++ [nextRef p]) \/
  (exists time, ev = ClockStopped /\
     nextRef q = nextRef p /\ _activeSources q = _activeSources p /\
     forall r, sources q !! r = forced time <$> sources p !! r \/
               sources q !! r = sources p !! r).
Proof.
  intros Hstep.
  destruct Hstep as [rq p|time p Hrun|time rest p Hev|source p Hsrc|time p|len p].
  - left. destruct (perform_keeps_store rq p) as (-> & -> & ->). auto.
  - destruct (endOfBuffer time p) eqn:Hend.
    + left. rewrite (tick_stops _ _ Hend).
      destruct (stop_keeps_grains (Some (TimeNumber time)) p) as (-> & -> & -> & _).
      auto.
    + right. left. exists time.
      destruct (tick_spawns _ _ Hend) as (Hs & Ha & Hn & _). auto.
  - right. right. exists time. rewrite onstop_forceAll.
    match goal with |- context [forceAll ?t ?l ?x] =>
      destruct (forceAll_spec t l x) as (Ha & Hn & _ & _ & _ & Hin & Hout) end.
    assert (Hq : forall x, _activeSources (onstop x) = _activeSources x /\
                           nextRef (onstop x) = nextRef x /\
                           sources (onstop x) = sources x) by (intros []; done).
    destruct (Hq (forceAll time
      (_activeSources (upd_clock (fun c => Clock.mk (Clock.frequency c)
         (Clock.state c) (Clock.tickOffset c) rest) p))
      (upd_clock (fun c => Clock.mk (Clock.frequency c)
         (Clock.state c) (Clock.tickOffset c) rest) p))) as (-> & -> & ->).
    rewrite Ha, Hn.
    split; [reflexivity|]. split; [now destruct p|]. split; [now destruct p|].
    intros r.
    destruct (decide (r ∈ _activeSources (upd_clock (fun c => Clock.mk (Clock.frequency c)
         (Clock.state c) (Clock.tickOffset c) rest) p))) as [Hr|Hr].
    + left. rewrite (Hin r Hr). now destruct p.
    + right. rewrite (Hout r Hr). now destruct p.
  - left. rewrite onended_active. split; [now destruct p|]. split; [now destruct p|].
    right. exists source. split; [reflexivity|]. now destruct p.
  - left. destruct p; cbn; auto.
  - left. destruct p; cbn; auto.
Qed.

Lemma spliceOut_sorted (source : ref) (l : list ref) :
  StronglySorted lt l -> StronglySorted lt (spliceOut source l).
Proof.
  induction 1 as [|x l Hl IH Hx]; [constructor|].
  rewrite spliceOut_cons. case_decide; [assumption|].
  constructor; [assumption|].
  rewrite Forall_forall in Hx |- *. intros r Hr.
  apply Hx. eapply spliceOut_subset, Hr.
Qed.

Lemma step_tidy (p q : t) (ev : Event) : step p ev q -> tidy p -> tidy q.
Proof.
  intros Hstep (Hdom & Hsch & Hlt & Hsorted).
  destruct (step_store _ _ _ Hstep)
    as [(Hs & Hn & Ha)|[(time & _ & Hs & Hn & Ha)|(time & _ & Hn & Ha & Hs)]].
  - unfold tidy. rewrite Hs, Hn. split; [assumption|]. split; [assumption|].
    destruct Ha as [->|(source & _ & ->)]; [split; assumption|].
    split; [|now apply spliceOut_sorted].
    rewrite Forall_forall in Hlt |- *. intros r Hr.
    apply Hlt. eapply spliceOut_subset, Hr.
  - unfold tidy. rewrite Hs, Hn, Ha. split; [|split; [|split]].
    + intros r. rewrite lookup_insert. case_decide; subst.
      * split; [lia|eauto].
      * rewrite Hdom. lia.
    + intros r g. rewrite lookup_insert. case_decide; subst.
      * intros [= <-]. apply spawned_scheduled.
      * apply Hsch.
    + apply Forall_app. split.
      * eapply Forall_impl; [exact Hlt|]. cbn. lia.
      * repeat constructor.
    + apply StronglySorted_app. split; [|split; [assumption|repeat constructor]].
      intros x1 x2 Hx1 ->%list_elem_of_singleton.
      rewrite Forall_forall in Hlt. now apply Hlt.
  - unfold tidy. rewrite Hn, Ha. split; [|split; [|split; assumption]].
    + intros r. destruct (Hs r) as [E|E]; unfold ref in *; rewrite E; [|apply Hdom].
      rewrite fmap_is_Some. apply Hdom.
    + intros r g. destruct (Hs r) as [E|E]; unfold ref in *; rewrite E; [|apply Hsch].
      intros (g0 & Hg0 & ->)%fmap_Some.
      apply forced_scheduled. eapply Hsch, Hg0.
Qed.

Lemma reachable_tidy (p : t) : reachable p -> tidy p.
Proof.
  induction 1 as [options currentTime p Hnew|p ev q _ IH Hstep].
  - destruct (constructor_no_grains _ _ _ Hnew) as [Ha Hn].
    assert (Hs : sources p = ∅).
    { revert Hnew. unfold constructor, set_playbackRate, assertRange.
      destruct (0.001 <? Options.playbackRate options); [|discriminate].
      now intros [= <-]. }
    unfold tidy. rewrite Ha, Hn, Hs. split; [|split; [|split; constructor]].
    + intros r. rewrite lookup_empty. split; [intros []; discriminate|lia].
    + intros r g. now rewrite lookup_empty.
  - eapply step_tidy; eassumption.
Qed.

Lemma run_reachable (p q : t) : reachable p -> run p q -> reachable q.
Proof.
  intros Hp Hrun. induction Hrun as [|a b c [ev Hstep] _ IH]; [assumption|].
  apply IH. eapply reachable_step; eassumption.
Qed.

(** X1.  Built from options whose playback rate is above 0.001, the player
    reports the rate, grain size, overlap, detune, loop flag, loop bounds and
    reverse flag it was given; its clock, created at [1 / grainSize], has been
    retuned by the setters to [playbackRate / grainSize]; it has no grain, its
    clock is not running and it is stopped at every time. *)
Theorem constructor_builds_player (options : Options.t) (currentTime : Seconds) :
  (0.001 <? Options.playbackRate options) = true ->
  exists p,
    constructor options currentTime = Returned p /\
    playbackRate p = Options.playbackRate options /\
    grainSize p = Options.grainSize options /\
    overlap p = Options.overlap options /\
    detune p = Options.detune options /\
    loop p = Options.loop options /\
    _loopStart p = toSeconds p (Some (Options.loopStart options)) /\
    _loopEnd p = toSeconds p (Some (Options.loopEnd options)) /\
    ToneAudioBuffer.reverse (buffer p) = Options.reverse options /\
    Param.getValueAtTime currentTime (Clock.frequency (_clock p))
      = Options.playbackRate options / Options.grainSize options /\
    _activeSources p = [] /\
    sources p = ∅ /\
    (forall time, Clock.running time (_clock p) = false) /\
    (forall time, StateTimeline.getValueAtTime time (_state p) = stopped).
Proof.
  intros Hrate. unfold constructor, set_playbackRate, assertRange.
  rewrite Hrate. eexists. split; [reflexivity|].
  cbn. do 8 (split; [try reflexivity; now destruct (Options.url options) as [[]|]|]).
  split.
  { unfold Param.getValueAtTime. cbn.
    rewrite !FloatOrder.ltb_irrefl. cbn. now rewrite !FloatOrder.ltb_irrefl. }
  repeat split.
Qed.

(** X2.  Only a tick and a stop event of the clock touch a grain: a request
    (any setter, [start], [stop], [restart]), the completion of a grain, time
    passing or the buffer loading leave the store as it is and list no new
    grain. *)
Theorem only_ticks_and_stop_events_touch_grains (p q : t) (ev : Event) :
  step p ev q ->
  (forall time, ev <> Tick time) ->
  ev <> ClockStopped ->
  sources q = sources p /\ nextRef q = nextRef p /\
  forall r, r ∈ _activeSources q -> r ∈ _activeSources p.
Proof.
  intros Hstep Htick Hstop.
  destruct (step_store _ _ _ Hstep)
    as [(Hs & Hn & Ha)|[(time & -> & _)|(time & -> & _)]].
  - split; [assumption|]. split; [assumption|].
    destruct Ha as [->|(source & _ & ->)]; [auto|].
    intros r. apply spliceOut_subset.
  - now destruct (Htick time).
  - now destruct Hstop.
Qed.

(** X3.  In every reachable player the active sources are listed oldest first
    and without repetition, each of them names a grain of the store, and every
    grain of the store is connected, was started, has a stop scheduled and a
    completion callback. *)
Theorem active_grains_are_scheduled (p : t) :
  reachable p ->
  StronglySorted lt (_activeSources p) /\
  NoDup (_activeSources p) /\
  (forall r, r ∈ _activeSources p ->
     exists g, sources p !! r = Some g /\ scheduled g) /\
  (forall r g, sources p !! r = Some g -> (r < nextRef p)%nat /\ scheduled g).
Proof.
  intros Hreach.
  destruct (reachable_tidy _ Hreach) as (Hdom & Hsch & Hlt & Hsorted).
  destruct (reachable_well_formed _ Hreach) as [Hnd _].
  split; [assumption|]. split; [assumption|]. split.
  - intros r Hr. rewrite Forall_forall in Hlt.
    destruct (proj2 (Hdom r) (Hlt r Hr)) as [g Hg].
    exists g. split; [assumption|]. eapply Hsch, Hg.
  - intros r g Hg. split; [|eapply Hsch, Hg]. apply Hdom. eauto.
Qed.





Lemma set_playbackRate_accepted (rate : Positive) (p : t) :
  (0.001 <? rate) = true ->
  set_playbackRate rate p
  = Returned (set_grainSize (TimeNumber (_grainSize p)) (put_playbackRate rate p)).
Proof.
  intros Hrate. unfold set_playbackRate, assertRange. rewrite Hrate.
  now destruct p.
Qed.

(** X5.  Pitch and playback rate are independent.  Setting the playback
    rate keeps the detune, so the grain of the next tick still plays at the
    ratio of the detune; setting the detune keeps the clock and the rate, so the
    next grain starts, stops and fades as it would have, and only plays at the
    new ratio. *)
Theorem pitch_and_rate_are_independent
    (p : t) (time : Seconds) (rate : Positive) (cents : Cents) :
  (0.001 <? rate) = true ->
  (exists q,
     set_playbackRate rate p = Returned q /\
     detune q = detune p /\
     (endOfBuffer time q = false ->
      exists g,
        sources (_tick time q) !! nextRef p = Some g /\
        ToneBufferSource.playbackRate g
        = intervalToFrequencyRatio (detune p / 100))) /\
  (let q := put_detune cents p in
   _clock q = _clock p /\
   playbackRate q = playbackRate p /\
   endOfBuffer time q = endOfBuffer time p /\
   (endOfBuffer time p = false ->
    exists g g',
      sources (_tick time p) !! nextRef p = Some g /\
      sources (_tick time q) !! nextRef p = Some g' /\
      ToneBufferSource.startCall g' = ToneBufferSource.startCall g /\
      ToneBufferSource.stopCall g' = ToneBufferSource.stopCall g /\
      ToneBufferSource.fadeIn g' = ToneBufferSource.fadeIn g /\
      ToneBufferSource.fadeOut g' = ToneBufferSource.fadeOut g /\
      ToneBufferSource.playbackRate g' = intervalToFrequencyRatio (cents / 100))).
Proof.
  intros Hrate. split.
  - rewrite (set_playbackRate_accepted _ _ Hrate). eexists.
    split; [reflexivity|]. split; [now destruct p|].
    intros Hend. destruct (tick_spawns _ _ Hend) as (Hs & _).
    eexists. split.
    + rewrite Hs.
      replace (nextRef (set_grainSize (TimeNumber (_grainSize p))
                          (put_playbackRate rate p))) with (nextRef p)
        by now destruct p.
      apply lookup_insert_eq.
    + now destruct p.
  - intros q.
    assert (Hq : _clock q = _clock p /\ playbackRate q = playbackRate p /\
                 endOfBuffer time q = endOfBuffer time p /\ nextRef q = nextRef p)
      by (subst q; now destruct p).
    destruct Hq as (Hc & Hr & He & Hn).
    do 3 (split; [assumption|]).
    intros Hend. pose proof Hend as Hend'. rewrite <- He in Hend'.
    destruct (tick_spawns _ _ Hend) as (Hs & _).
    destruct (tick_spawns _ _ Hend') as (Hs' & _).
    exists (spawned time p), (spawned time q).
    rewrite Hs, Hs', Hn, !lookup_insert_eq.
    do 2 (split; [reflexivity|]). subst q. now destruct p.
Qed.

(** X6.  The rate and size setters retune the clock from the current time on
    only: at any earlier time the clock's frequency reads as before. *)
Theorem frequency_before_now_is_kept
    (p : t) (rate : Positive) (size : Time) (earlier : Seconds) :
  (earlier <? now p) = true ->
  (0.001 <? rate) = true ->
  (exists q,
     set_playbackRate rate p = Returned q /\
     Param.getValueAtTime earlier (Clock.frequency (_clock q))
     = Param.getValueAtTime earlier (Clock.frequency (_clock p))) /\
  Param.getValueAtTime earlier (Clock.frequency (_clock (set_grainSize size p)))
  = Param.getValueAtTime earlier (Clock.frequency (_clock p)).
Proof.
  intros Hearlier Hrate. split.
  - rewrite (set_playbackRate_accepted _ _ Hrate). eexists. split; [reflexivity|].
    destruct p; cbn in *. unfold Param.getValueAtTime; cbn.
    now apply TimelineMore.valueAt_add_earlier.
  - destruct p; cbn in *. unfold Param.getValueAtTime; cbn.
    now apply TimelineMore.valueAt_add_earlier.
Qed.

Lemma spliceOut_snoc (n : ref) (l : list ref) :
  n ∉ l -> spliceOut n (l ++ [n]) = l.
Proof.
  induction l as [|x l IH]; intros Hn; cbn.
  - now rewrite spliceOut_cons, decide_True.
  - apply not_elem_of_cons in Hn as [Hne Hn].
    rewrite spliceOut_cons, decide_False by congruence. now rewrite IH.
Qed.

(** X7.  In a reachable player, a tick that spawns a grain followed by that
    grain's completion leaves the active sources as they were; the grain stays
    in the store and no other grain changed. *)
Theorem spawn_then_complete (p : t) (time : Seconds) :
  reachable p ->
  endOfBuffer time p = false ->
  let q := onended (nextRef p) (_tick time p) in
  _activeSources q = _activeSources p /\
  sources q !! nextRef p = Some (spawned time p) /\
  forall r, r <> nextRef p -> sources q !! r = sources p !! r.
Proof.
  intros Hreach Hend q. subst q.
  destruct (reachable_tidy _ Hreach) as (_ & _ & Hlt & _).
  destruct (tick_spawns _ _ Hend) as (Hs & Ha & _).
  rewrite onended_active.
  assert (Hq : forall f x, _activeSources (upd_activeSources f x) = f (_activeSources x)
                           /\ sources (upd_activeSources f x) = sources x)
    by (intros f []; split; reflexivity).
  rewrite (proj1 (Hq _ _)), (proj2 (Hq _ _)), Ha, Hs.
  split; [|split].
  - apply spliceOut_snoc. intros Hin.
    rewrite Forall_forall in Hlt. specialize (Hlt _ Hin). lia.
  - apply lookup_insert_eq.
  - intros r Hr. now apply lookup_insert_ne.
Qed.

(** X8.  A tick whose offset is exactly the buffer's duration still spawns a
    grain and stops nothing: the end-of-buffer test is a strict comparison. *)
Theorem tick_at_exact_end_still_spawns (p : t) (time : Seconds) :
  tickOffset time p = ToneAudioBuffer.duration (buffer p) ->
  let q := _tick time p in
  _activeSources q = _activeSources p ++ [nextRef p] /\
  sources q !! nextRef p = Some (spawned time p) /\
  _clock q = _clock p /\
  _state q = _state p.
Proof.
  intros Heq q.
  assert (Hend : endOfBuffer time p = false).
  { unfold endOfBuffer. rewrite Heq, FloatOrder.ltb_irrefl. apply andb_false_r. }
  destruct (tick_spawns _ _ Hend) as (Hs & Ha & _ & _ & Hc & Hst).
  subst q. rewrite Hs, lookup_insert_eq. auto.
Qed.

(** X9.  A [restart] without duration of a player started at [t] leaves the
    clock running at [t] with the initial tick count of the new offset, one
    more stop event queued for the stop handler, the same frequency, and the
    playback state, the store and the active sources untouched. *)
Theorem restart_leaves_clock_running (p : t) (time offset duration : option Time) :
  let t := toSeconds p time in
  StateTimeline.getValueAtTime t (_state p) = started ->
  truthy duration = false ->
  let q := restart time offset duration p in
  Clock.running t (_clock q) = true /\
  Clock.offsetAt t (_clock q)
  = toSeconds p (Some (defaultArg offset (TimeNumber 0)))
    / (1 / Param.getValueAtTime t (Clock.frequency (_clock p))) /\
  Clock.stopEvents (_clock q) = Clock.stopEvents (_clock p) ++ [t] /\
  Clock.frequency (_clock q) = Clock.frequency (_clock p) /\
  _state q = _state p /\
  sources q = sources p /\
  _activeSources q = _activeSources p.
Proof.
  intros t Hst Hd q. subst q. unfold restart. fold t.
  rewrite bool_decide_eq_true_2 by assumption.
  unfold _start, _stop. rewrite Hd. cbn [toSeconds].
  destruct p; cbn. unfold Clock.running, Clock.offsetAt; cbn.
  unfold StateTimeline.getValueAtTime, StateTimeline.setStateAtTime.
  rewrite !TimelineFacts.valueAt_add.
  split; [reflexivity|]. split; [|auto].
  now destruct offset as [[]|].
Qed.

Lemma spliceOut_filter (source : ref) (l : list ref) :
  NoDup l -> spliceOut source l = filter (fun r => r <> source) l.
Proof.
  induction 1 as [|x l Hx Hl IH]; [reflexivity|].
  rewrite spliceOut_cons. case_decide; subst.
  - rewrite filter_cons_False by auto.
    rewrite <- IH. symmetry. now apply spliceOut_absent.
  - rewrite filter_cons_True by assumption. now rewrite IH.
Qed.

(** X10.  In a reachable player the completion of a grain removes just that
    grain from the active sources and keeps the others in their order; when
    the grain was listed the list is one shorter. *)
Theorem completion_keeps_the_order (p : t) (source : ref) :
  reachable p ->
  let q := onended source p in
  _activeSources q = filter (fun r => r <> source) (_activeSources p) /\
  StronglySorted lt (_activeSources q) /\
  (source ∈ _activeSources p ->
   S (length (_activeSources q)) = length (_activeSources p)).
Proof.
  intros Hreach q. subst q.
  destruct (reachable_well_formed _ Hreach) as [Hnd _].
  destruct (reachable_tidy _ Hreach) as (_ & _ & _ & Hsorted).
  rewrite onended_active.
  assert (Hq : forall f x, _activeSources (upd_activeSources f x) = f (_activeSources x))
    by (intros f []; reflexivity).
  rewrite Hq. split; [now apply spliceOut_filter|].
  split; [now apply spliceOut_sorted|].
  clear Hnd Hsorted Hreach. induction (_activeSources p) as [|x l IH].
  - intros Hin. now apply elem_of_nil in Hin.
  - intros Hin. rewrite spliceOut_cons. case_decide; [reflexivity|].
    apply elem_of_cons in Hin as [->|Hin]; [congruence|].
    cbn. now rewrite IH.
Qed.

(** X11.  Setting the loop bounds changes neither the clock, the playback
    state nor any existing grain, and does not change whether a tick stops the
    player; the grain of the next tick carries the new bounds. *)
Theorem new_loop_bounds_reach_the_next_grain
    (p : t) (time : Seconds) (first last : Time) :
  let q := set_loopEnd last (set_loopStart first p) in
  _clock q = _clock p /\
  _state q = _state p /\
  sources q = sources p /\
  endOfBuffer time q = endOfBuffer time p /\
  (endOfBuffer time p = false ->
   exists g,
     sources (_tick time q) !! nextRef p = Some g /\
     ToneBufferSource.loopStart g = toSeconds p (Some first) /\
     ToneBufferSource.loopEnd g = toSeconds p (Some last) /\
     ToneBufferSource.loop g = loop p).
Proof.
  intros q.
  assert (Hq : _clock q = _clock p /\ _state q = _state p /\ sources q = sources p /\
               endOfBuffer time q = endOfBuffer time p /\ nextRef q = nextRef p)
    by (subst q; now destruct p, first, last).
  destruct Hq as (Hc & Hst & Hs & He & Hn).
  do 4 (split; [assumption|]).
  intros Hend. rewrite <- He in Hend.
  destruct (tick_spawns _ _ Hend) as (Hs' & _).
  exists (spawned time q). rewrite Hs', Hn, lookup_insert_eq.
  split; [reflexivity|]. subst q. now destruct p, first, last.
Qed.

(** X12.  No request but the rate and size setters changes the clock's
    frequency: not [start], [stop] or [restart], and no other setter. *)
Theorem only_rate_and_size_retune_the_clock (rq : Request) (p : t) :
  (forall rate, rq <> SetPlaybackRate rate) ->
  (forall size, rq <> SetGrainSize size) ->
  Clock.frequency (_clock (state_of (perform rq p))) = Clock.frequency (_clock p).
Proof.
  intros Hrate Hsize.
  destruct rq; try (now destruct (Hrate rate)); try (now destruct (Hsize size));
    settle.
Qed.

End MoreScheduler.


(** ** The session again *)

Module MoreChecks.
Import GrainPlayer Lifecycle Session.
Local Open Scope float_scope.

Lemma sounding_reached : reachable (H := host) sounding.
Proof.
  apply (reachable_step (H := host) playing (Tick 0)).
  - apply (reachable_step (H := host) fresh
             (Asked (CallStart (Some (TimeNumber 0)) None None))).
    + exact (reachable_new (H := host) options 0 fresh eq_refl).
    + exact (step_asked (H := host) _ fresh).
  - apply (step_tick (H := host)). reflexivity.
Defined.

Lemma constructor_builds_player_witness :
  exists p,
    constructor (H := host) options 0 = Returned p /\
    Param.getValueAtTime 0 (Clock.frequency (_clock p)) = 1 / 0.2.
Proof.
  destruct (constructor_builds_player (H := host) options 0 eq_refl)
    as (p & Hp & _ & _ & _ & _ & _ & _ & _ & _ & Hf & _).
  exists p. split; [exact Hp|exact Hf].
Defined.

Lemma only_ticks_and_stop_events_touch_grains_witness :
  sources (onended 0%nat sounding) = sources sounding.
Proof.
  refine (proj1 (only_ticks_and_stop_events_touch_grains (H := host)
                   sounding (onended 0%nat sounding) (Ended 0%nat)
                   (step_ended (H := host) 0%nat sounding _) _ _)).
  - eexists. reflexivity.
  - intros time. discriminate.
  - discriminate.
Defined.

Lemma active_grains_are_scheduled_witness :
  exists g, sources sounding !! 0%nat = Some g /\ scheduled g.
Proof.
  destruct (active_grains_are_scheduled (H := host) sounding sounding_reached)
    as (_ & _ & Hactive & _).
  apply Hactive. left.
Defined.


Lemma pitch_and_rate_are_independent_witness :
  exists q,
    set_playbackRate (H := host) 2 playing = Returned q /\
    detune q = detune playing.
Proof.
  destruct (pitch_and_rate_are_independent (H := host) playing 0 2 1200 eq_refl)
    as [(q & Hq & Hd & _) _].
  exists q. split; [exact Hq|exact Hd].
Defined.

Lemma frequency_before_now_is_kept_witness :
  Param.getValueAtTime 1
    (Clock.frequency (_clock (set_grainSize (H := host) (TimeNumber 0.5)
                                (put_now 3 playing))))
  = Param.getValueAtTime 1 (Clock.frequency (_clock (put_now 3 playing))).
Proof.
  exact (proj2 (frequency_before_now_is_kept (H := host) (put_now 3 playing) 2
                  (TimeNumber 0.5) 1 eq_refl eq_refl)).
Defined.

Lemma spawn_then_complete_witness :
  _activeSources (onended 1%nat (_tick (H := host) 0.2 sounding))
  = _activeSources sounding.
Proof.
  exact (proj1 (spawn_then_complete (H := host) sounding 0.2 sounding_reached eq_refl)).
Defined.

Lemma tick_at_exact_end_still_spawns_witness :
  _activeSources (_tick (H := host) 2 playing) = [0%nat].
Proof.
  exact (proj1 (tick_at_exact_end_still_spawns (H := host) playing 2 eq_refl)).
Defined.

Lemma restart_leaves_clock_running_witness :
  let q := restart (H := host) (Some (TimeNumber 1)) (Some (TimeNumber 0.4)) None playing in
  Clock.running 1 (_clock q) = true /\ Clock.offsetAt 1 (_clock q) = 0.4 / (1 / 5).
Proof.
  destruct (restart_leaves_clock_running (H := host) playing
              (Some (TimeNumber 1)) (Some (TimeNumber 0.4)) None eq_refl eq_refl)
    as (Hrun & Hoff & _).
  split; [exact Hrun|exact Hoff].
Defined.

Lemma completion_keeps_the_order_witness :
  _activeSources (onended 0%nat sounding)
  = filter (fun r => r <> 0%nat) (_activeSources sounding).
Proof.
  exact (proj1 (completion_keeps_the_order (H := host) sounding 0%nat sounding_reached)).
Defined.

Lemma new_loop_bounds_reach_the_next_grain_witness :
  exists g,
    sources (_tick (H := host) 0
               (set_loopEnd (H := host) (TimeNumber 1.5)
                  (set_loopStart (H := host) (TimeNumber 0.5) playing))) !! 0%nat
    = Some g /\
    ToneBufferSource.loopStart g = 0.5 /\ ToneBufferSource.loopEnd g = 1.5.
Proof.
  destruct (new_loop_bounds_reach_the_next_grain (H := host) playing 0
              (TimeNumber 0.5) (TimeNumber 1.5)) as (_ & _ & _ & _ & Hnext).
  destruct (Hnext eq_refl) as (g & Hg & Hfirst & Hlast & _).
  exists g. split; [exact Hg|]. split; [exact Hfirst|exact Hlast].
Defined.

Lemma only_rate_and_size_retune_the_clock_witness :
  Clock.frequency (_clock (restart (H := host) (Some (TimeNumber 1)) None None playing))
  = Clock.frequency (_clock playing).
Proof.
  refine (only_rate_and_size_retune_the_clock (H := host)
            (CallRestart (Some (TimeNumber 1)) None None) playing _ _);
    intros ?; discriminate.
Defined.

End MoreChecks.
